(** * cleanup_opengl.py: the conditional-block filter and its rewrite driver

    A shallow embedding of [src/cleanup_opengl.py].

    - [Py] holds the Python string primitives the script calls
      ([str.strip], [str.startswith], [str.endswith], the substring test
      [in]).
    - [Filter] is [process_file]: the per-line loop with its two counters.
    - [Driver] is [clean_renderer_files]: the walk of the directory tree
      ([os.walk], [os.path.join]), candidate selection and the conditional
      rewrite.

    A Python [str] is modelled as a [string] whose characters are code points
    below 256; a file is modelled by the list of lines [readlines()] returns
    for it (every line carries its terminator, except possibly the last). *)

From Stdlib Require Import ZArith Ascii String Lia.
From stdpp Require Import base list strings gmap pretty.

Set Warnings "-register-all".

Local Open Scope Z_scope.

(** ** Python primitives *)

Module Py.

(** [c.isspace()] for a code point below 256: TAB, LF, VT, FF, CR, the four
    separators FS GS RS US, SPACE, NEL and NBSP. *)
Definition isspace (c : ascii) : bool :=
  let n := N_of_ascii c in
  ((9 <=? n) && (n <=? 13) || (28 <=? n) && (n <=? 32)
   || (n =? 133) || (n =? 160))%N.

(** [s.lstrip()] *)
Fixpoint lstrip (s : string) : string :=
  match s with
  | EmptyString => EmptyString
  | String c r => if isspace c then lstrip r else s
  end.

(** [s.rstrip()] *)
Fixpoint rstrip (s : string) : string :=
  match s with
  | EmptyString => EmptyString
  | String c r =>
      match rstrip r with
      | EmptyString => if isspace c then EmptyString else String c EmptyString
      | r' => String c r'
      end
  end.

(** [s.strip()] *)
Definition strip (s : string) : string := rstrip (lstrip s).

(** [s.startswith(p)] *)
Fixpoint startswith (p s : string) : bool :=
  match p, s with
  | EmptyString, _ => true
  | String _ _, EmptyString => false
  | String a p', String b s' => if Ascii.eqb a b then startswith p' s' else false
  end.

(** [t in s]: [t] occurs in [s] as a contiguous substring. *)
Fixpoint contains (t s : string) : bool :=
  startswith t s ||
  match s with
  | EmptyString => false
  | String _ s' => contains t s'
  end.

(** [s.endswith(e)] *)
Fixpoint endswith (e s : string) : bool :=
  String.eqb e s ||
  match s with
  | EmptyString => false
  | String _ s' => endswith e s'
  end.

(** *** Derived notions used to state the properties *)

(** Every character of [s] is whitespace. *)
Fixpoint allspace (s : string) : bool :=
  match s with
  | EmptyString => true
  | String c r => isspace c && allspace r
  end.

(** [s] begins with a whitespace character. *)
Definition head_space (s : string) : bool :=
  match s with
  | EmptyString => false
  | String c _ => isspace c
  end.

(** [s] ends with a whitespace character. *)
Fixpoint last_space (s : string) : bool :=
  match s with
  | EmptyString => false
  | String c EmptyString => isspace c
  | String _ r => last_space r
  end.

End Py.

(** ** The conditional-block filter: [process_file] *)

Module Filter.

Import Py.

(** The four fixed tokens. *)
Definition open_discard : string := "#ifndef USE_VULKAN".
Definition open_retain : string := "#ifdef USE_VULKAN".
Definition else_token : string := "#else".
Definition end_token : string := "#endif".

(** The local variables of the loop: the two counters and the output list.
    ([i] only walks the list front to back, one line per iteration.) *)
Record loop_state := LoopState {
  skip_depth : Z;
  keep_depth : Z;
  output_lines : list string
}.

Definition initial : loop_state := LoopState 0 0 [].

(** The tail of the loop body: [if skip_depth == 0: output_lines.append(line)]. *)
Definition emit (st : loop_state) (line : string) : loop_state :=
  if skip_depth st =? 0
  then LoopState (skip_depth st) (keep_depth st) (output_lines st ++ [line])
  else st.

(** One iteration of the [while] loop on [line = lines[i]].  Every path
    through the body adds exactly one to [i], so the loop is a left fold. *)
Definition loop_body (st : loop_state) (line : string) : loop_state :=
  let skip := skip_depth st in
  let keep := keep_depth st in
  let out := output_lines st in
  if startswith "#" (strip line) then
    let stripped := strip line in
    if contains open_discard stripped then
      LoopState (skip + 1) keep out
    else if contains open_retain stripped then
      LoopState skip (keep + 1) out
    else if contains else_token stripped && ((0 <? skip) || (0 <? keep)) then
      if 0 <? skip then LoopState (skip - 1) (keep + 1) out
      else if 0 <? keep then LoopState (skip + 1) (keep - 1) out
      else st
    else if contains end_token stripped && ((0 <? skip) || (0 <? keep)) then
      if 0 <? skip then LoopState (skip - 1) keep out
      else if 0 <? keep then LoopState skip (keep - 1) out
      else st
    else emit st line
  else emit st line.

(** The whole loop, from a given state. *)
Definition run (st : loop_state) (lines : list string) : loop_state :=
  fold_left loop_body lines st.

(** The filter proper: what [process_file] returns for a file whose
    [readlines()] is [lines]. *)
Definition process_lines (lines : list string) : list string :=
  output_lines (run initial lines).

(** [process_file(filepath)] on a store of files; [None] is the exception
    [open] raises for a path that cannot be read. *)
Definition process_file (files : gmap string (list string)) (filepath : string)
  : option (list string) :=
  lines ← files !! filepath;
  Some (process_lines lines).

(** A line with its terminator. *)
Definition LF : string := String (ascii_of_nat 10) EmptyString.
Definition ln (s : string) : string := s +:+ LF.

(** *** Derived notions used to state the properties *)

(** The classification of a line by the [if]/[elif] chain: the first token
    found wins, in the order the chain tests them; a line whose trimmed
    content does not begin with [#] is ordinary whatever it contains. *)
Inductive kind := OpenDiscard | OpenRetain | ElseMarker | EndMarker | Ordinary.

Definition classify (line : string) : kind :=
  let stripped := strip line in
  if startswith "#" stripped then
    if contains open_discard stripped then OpenDiscard
    else if contains open_retain stripped then OpenRetain
    else if contains else_token stripped then ElseMarker
    else if contains end_token stripped then EndMarker
    else Ordinary
  else Ordinary.

(** A directive line: its trimmed content begins with [#]. *)
Definition is_directive (line : string) : bool := startswith "#" (strip line).


(** A directive line that carries one of the two opening tokens. *)
Definition opener (line : string) : bool :=
  is_directive line &&
  (contains open_discard (strip line) || contains open_retain (strip line)).

(** A line that is neither an else-marker nor an end-marker. *)
Definition closes_nothing (line : string) : Prop :=
  classify line ≠ ElseMarker ∧ classify line ≠ EndMarker.

(** The same counters with an empty output list. *)
Definition clear (st : loop_state) : loop_state :=
  LoopState (skip_depth st) (keep_depth st) [].

(** The lines appended to the output while [lines] is processed from [st]. *)
Definition emitted (st : loop_state) (lines : list string) : list string :=
  output_lines (run (clear st) lines).

(** Lexical nesting of C conditionals, whatever their condition: a directive
    [#if...] opens a block and [#endif] closes the innermost open one.
    [nesting d lines] is the depth after [lines], starting at depth [d], or
    [None] when some [#endif] has nothing to close. *)
Fixpoint nesting (d : nat) (lines : list string) : option nat :=
  match lines with
  | [] => Some d
  | line :: rest =>
      if startswith "#if" (strip line) then nesting (S d) rest
      else if startswith "#endif" (strip line) then
        match d with
        | O => None
        | S d' => nesting d' rest
        end
      else nesting d rest
  end.

Definition well_nested (lines : list string) : Prop := nesting 0 lines = Some 0%nat.

End Filter.

(** ** The tree walker and rewrite driver: [clean_renderer_files] *)

Module Driver.

Import Py Filter.

(** A directory as [os.walk] sees it: the sub-directories and the other
    entries, by name, in listing order.  Symbolic links are not followed
    and are left out. *)
Inductive tree := Dir (subdirs : list (string * tree)) (files : list string).

(** What the script reads and changes: the content of each readable file,
    by path, and the lines printed so far (one entry per [print] call). *)
Record world := World {
  contents : gmap string (list string);
  stdout : list string
}.

Section Walker.

(** [os.sep] *)
Variable sep : ascii.

Definition sep_str : string := String sep EmptyString.

(** [os.path.join(path, b)] as [posixpath] defines it, for the separator
    [sep]: an absolute [b] replaces [path]; otherwise [b] is appended, after
    a separator unless [path] is empty or already ends in one.  On a
    directory path and a plain entry name (the arguments the walk passes)
    [ntpath.join] does the same with its own separator. *)
Definition join (path b : string) : string :=
  if startswith sep_str b then b
  else if String.eqb path EmptyString || endswith sep_str path then path +:+ b
  else path +:+ sep_str +:+ b.

(** [os.walk(top)], top-down: the triple of the directory itself, then the
    walk of each sub-directory under its joined path. *)
Fixpoint walk (top : string) (t : tree)
  : list (string * list string * list string) :=
  match t with
  | Dir subdirs files =>
      (top, map fst subdirs, files) ::
      (fix walk_all (l : list (string * tree)) :=
         match l with
         | [] => []
         | (name, sub) :: l' => walk (join top name) sub ++ walk_all l'
         end) subdirs
  end.

(** The inner [for file in files] loop. *)
Definition collect_file (root : string) (acc : list string) (file : string)
  : list string :=
  if endswith ".c" file || endswith ".h" file
  then acc ++ [join root file]
  else acc.

(** The body of [for root, dirs, files in os.walk(renderer_path)]. *)
Definition collect (acc : list string)
  (entry : string * list string * list string) : list string :=
  let '(root, _, files) := entry in
  if contains "vulkan" root then acc
  else fold_left (collect_file root) files acc.

(** [files_to_process] after the walk of [entries]. *)
Definition files_to_process
  (entries : list (string * list string * list string)) : list string :=
  fold_left collect entries [].

(** The body of [for filepath in files_to_process]; the state is the world
    and [modified_count], [None] is an uncaught exception of [open]. *)
Definition rewrite_file (s : world * Z) (filepath : string)
  : option (world * Z) :=
  let '(w, modified_count) := s in
  original_lines ← contents w !! filepath;
  processed_lines ← process_file (contents w) filepath;
  if bool_decide (processed_lines ≠ original_lines) then
    Some (World (<[filepath := processed_lines]> (contents w))
                (stdout w ++ ["Modified: " +:+ filepath]),
          modified_count + 1)
  else Some (w, modified_count).

(** The rewrite loop over a list of paths. *)
Fixpoint rewrite_all (s : world * Z) (paths : list string)
  : option (world * Z) :=
  match paths with
  | [] => Some s
  | filepath :: rest => s' ← rewrite_file s filepath; rewrite_all s' rest
  end.

(** [clean_renderer_files(base_path)], where [t] is the directory tree found
    at [renderer_path]. *)
Definition clean_renderer_files (base_path : string) (t : tree) (w : world)
  : option world :=
  let renderer_path := join (join (join base_path "src") "engine") "renderer" in
  let to_process := files_to_process (walk renderer_path t) in
  let w1 :=
    World (contents w)
          (stdout w ++
           ["Found " +:+ pretty (length to_process) +:+ " files to process"]) in
  '(w2, modified_count) ← rewrite_all (w1, 0) to_process;
  Some (World (contents w2)
              (stdout w2 ++
               [LF +:+ "Modified " +:+ pretty modified_count +:+ " files";
                "OpenGL code removal complete!"])).

(** *** Derived notions used to state the properties *)

(** An entry name as a directory listing gives it: it does not begin with
    the separator, so joining it never discards the directory path. *)
Definition plain (name : string) : bool := negb (startswith sep_str name).

(** Every sub-directory name in the tree is plain. *)
Fixpoint plain_tree (t : tree) : bool :=
  match t with
  | Dir subdirs _ =>
      (fix all (l : list (string * tree)) :=
         match l with
         | [] => true
         | (name, sub) :: l' => plain name && plain_tree sub && all l'
         end) subdirs
  end.

(** The test of the inner loop: the name ends in [.c] or in [.h]. *)
Definition candidate_name (file : string) : bool :=
  endswith ".c" file || endswith ".h" file.

(** The candidates one walk entry gives, as a comprehension: none for a
    directory whose path carries [vulkan], otherwise the joined paths of
    the files with a candidate name, in listing order. *)
Definition entry_candidates
  (entry : string * list string * list string) : list string :=
  if contains "vulkan" entry.1.1 then []
  else map (join entry.1.1) (List.filter candidate_name entry.2).

(** [subtree top t p s]: walking [t] from [top] reaches the directory [s]
    under the path [p]. *)
Inductive subtree : string → tree → string → tree → Prop :=
  | subtree_here top t : subtree top t top t
  | subtree_below top subdirs files name sub p s :
      (name, sub) ∈ subdirs →
      subtree (join top name) sub p s →
      subtree top (Dir subdirs files) p s.

End Walker.

End Driver.

(** ** Facts about the string primitives *)

Module PyFacts.

Import Py.

Lemma startswith_app t s u :
  startswith t s = true → startswith t (s +:+ u) = true.
Proof.
  revert s; induction t as [|a t IH]; intros [|b s]; simpl; try done.
  destruct (Ascii.eqb a b); [apply IH | done].
Qed.

Lemma contains_app t s u :
  contains t s = true → contains t (s +:+ u) = true.
Proof.
  induction s as [|b s IH]; simpl.
  - rewrite orb_false_r. intros H. destruct t; [by destruct u | done].
  - intros [H|H]%orb_true_iff; apply orb_true_iff.
    + left. by apply (startswith_app t (String b s) u).
    + right. by apply IH.
Qed.

End PyFacts.

(** ** Facts about the loop *)

Module FilterFacts.

Import Py Filter.

(** The loop body, read through the classification of the line. *)
Lemma loop_body_classify st line :
  loop_body st line =
  match classify line with
  | OpenDiscard =>
      LoopState (skip_depth st + 1) (keep_depth st) (output_lines st)
  | OpenRetain =>
      LoopState (skip_depth st) (keep_depth st + 1) (output_lines st)
  | ElseMarker =>
      if 0 <? skip_depth st
      then LoopState (skip_depth st - 1) (keep_depth st + 1) (output_lines st)
      else if 0 <? keep_depth st
      then LoopState (skip_depth st + 1) (keep_depth st - 1) (output_lines st)
      else emit st line
  | EndMarker =>
      if 0 <? skip_depth st
      then LoopState (skip_depth st - 1) (keep_depth st) (output_lines st)
      else if 0 <? keep_depth st
      then LoopState (skip_depth st) (keep_depth st - 1) (output_lines st)
      else emit st line
  | Ordinary => emit st line
  end.
Proof.
  unfold loop_body, classify.
  destruct (startswith "#" (strip line)); [|done].
  destruct (contains open_discard (strip line)); [done|].
  destruct (contains open_retain (strip line)); [done|].
  destruct (contains else_token (strip line)),
    (contains end_token (strip line)),
    (0 <? skip_depth st), (0 <? keep_depth st); done.
Qed.


(** The output list is only ever appended to, and the counters do not
    depend on it. *)
Lemma loop_body_frame s k o line :
  loop_body (LoopState s k o) line =
  let r := loop_body (LoopState s k []) line in
  LoopState (skip_depth r) (keep_depth r) (o ++ output_lines r).
Proof.
  rewrite !loop_body_classify. unfold emit. simpl.
  destruct (classify line), (0 <? s), (0 <? k), (s =? 0);
    simpl; rewrite ?app_nil_r; done.
Qed.

Lemma run_frame s k o lines :
  run (LoopState s k o) lines =
  let r := run (LoopState s k []) lines in
  LoopState (skip_depth r) (keep_depth r) (o ++ output_lines r).
Proof.
  revert s k o. induction lines as [|line lines IH]; intros s k o; simpl.
  - by rewrite app_nil_r.
  - unfold run in *. simpl. rewrite loop_body_frame. simpl.
    destruct (loop_body (LoopState s k []) line) as [s' k' o'] eqn:E. simpl.
    rewrite (IH s' k' (o ++ o')), (IH s' k' o'). simpl.
    by rewrite app_assoc.
Qed.

Lemma run_output st lines :
  output_lines (run st lines) = output_lines st ++ emitted st lines.
Proof. destruct st as [s k o]. unfold emitted, clear. by rewrite run_frame. Qed.

Lemma run_clear_skip st lines :
  skip_depth (run (clear st) lines) = skip_depth (run st lines).
Proof. destruct st as [s k o]. unfold clear. simpl. by rewrite (run_frame s k o). Qed.

Lemma run_clear_keep st lines :
  keep_depth (run (clear st) lines) = keep_depth (run st lines).
Proof. destruct st as [s k o]. unfold clear. simpl. by rewrite (run_frame s k o). Qed.

Lemma run_app st l1 l2 : run st (l1 ++ l2) = run (run st l1) l2.
Proof. apply fold_left_app. Qed.

Lemma run_cons st line lines : run st (line :: lines) = run (loop_body st line) lines.
Proof. done. Qed.

Lemma clear_run_clear st lines : clear (run (clear st) lines) = clear (run st lines).
Proof. unfold clear at 1 3. by rewrite run_clear_skip, run_clear_keep. Qed.

Lemma emitted_app st l1 l2 :
  emitted st (l1 ++ l2) = emitted st l1 ++ emitted (run st l1) l2.
Proof.
  unfold emitted. rewrite run_app, run_output.
  unfold emitted. by rewrite clear_run_clear.
Qed.

Lemma emitted_cons st line lines :
  emitted st (line :: lines) = emitted st [line] ++ emitted (loop_body st line) lines.
Proof. apply (emitted_app st [line] lines). Qed.

Lemma emitted_nil st : emitted st [] = [].
Proof. done. Qed.

Lemma process_lines_emitted lines : process_lines lines = emitted initial lines.
Proof. done. Qed.

Lemma process_lines_app l1 l2 :
  process_lines (l1 ++ l2) = process_lines l1 ++ emitted (run initial l1) l2.
Proof. rewrite !process_lines_emitted. apply emitted_app. Qed.

(** What one line adds to the output. *)
Lemma emitted_one st line :
  emitted st [line] =
  match classify line with
  | OpenDiscard | OpenRetain => []
  | ElseMarker | EndMarker =>
      if (0 <? skip_depth st) || (0 <? keep_depth st) then []
      else if skip_depth st =? 0 then [line] else []
  | Ordinary => if skip_depth st =? 0 then [line] else []
  end.
Proof.
  unfold emitted, run. simpl. rewrite loop_body_classify. unfold emit. simpl.
  destruct (classify line), (0 <? skip_depth st), (0 <? keep_depth st),
    (skip_depth st =? 0); done.
Qed.




(** The classification and the two predicates on directive lines agree. *)
Lemma opener_classify line :
  opener line = true ↔ classify line = OpenDiscard ∨ classify line = OpenRetain.
Proof.
  unfold opener, is_directive, classify.
  destruct (startswith "#" (strip line)),
    (contains open_discard (strip line)),
    (contains open_retain (strip line)),
    (contains else_token (strip line)),
    (contains end_token (strip line)); simpl; intuition congruence.
Qed.

Lemma opener_false_classify line :
  opener line = false ↔
  classify line = ElseMarker ∨ classify line = EndMarker ∨ classify line = Ordinary.
Proof.
  rewrite <-not_true_iff_false, opener_classify.
  destruct (classify line); intuition congruence.
Qed.


(** Nothing is appended while [skip_depth] is not zero. *)
Lemma emitted_one_skipping st line :
  skip_depth st ≠ 0 → emitted st [line] = [].
Proof.
  intros H. rewrite emitted_one.
  destruct (Z.eqb_spec (skip_depth st) 0); [done|].
  by repeat case_match.
Qed.

(** An emitted line never is an opening directive. *)
Lemma emitted_no_opener st lines :
  Forall (λ x, opener x = false) (emitted st lines).
Proof.
  revert st. induction lines as [|line lines IH]; intros st.
  - rewrite emitted_nil. constructor.
  - rewrite emitted_cons. apply Forall_app. split; [|apply IH].
    rewrite emitted_one.
    destruct (classify line) eqn:E; repeat case_match; try constructor;
      try apply opener_false_classify; auto.
Qed.

(** The counters never go below zero. *)
Lemma loop_body_nonneg st line :
  0 ≤ skip_depth st → 0 ≤ keep_depth st →
  0 ≤ skip_depth (loop_body st line) ∧ 0 ≤ keep_depth (loop_body st line).
Proof.
  intros Hs Hk. rewrite loop_body_classify. unfold emit.
  destruct (classify line), (Z.ltb_spec 0 (skip_depth st)),
    (Z.ltb_spec 0 (keep_depth st)), (skip_depth st =? 0); simpl; lia.
Qed.

Lemma run_nonneg st lines :
  0 ≤ skip_depth st → 0 ≤ keep_depth st →
  0 ≤ skip_depth (run st lines) ∧ 0 ≤ keep_depth (run st lines).
Proof.
  revert st. induction lines as [|line lines IH]; intros st Hs Hk; [done|].
  rewrite run_cons. destruct (loop_body_nonneg st line Hs Hk). by apply IH.
Qed.

(** With both counters at zero a line that opens nothing is appended and
    leaves the counters at zero. *)
Lemma loop_body_idle st line :
  skip_depth st = 0 → keep_depth st = 0 → opener line = false →
  loop_body st line = LoopState 0 0 (output_lines st ++ [line]).
Proof.
  intros Hs Hk Ho. rewrite loop_body_classify. unfold emit. rewrite Hs, Hk.
  apply opener_false_classify in Ho as [-> | [-> | ->]]; done.
Qed.

Lemma run_idle st lines :
  skip_depth st = 0 → keep_depth st = 0 →
  Forall (λ x, opener x = false) lines →
  run st lines = LoopState 0 0 (output_lines st ++ lines).
Proof.
  revert st. induction lines as [|line lines IH]; intros st Hs Hk Hl.
  - destruct st; simpl in *. by rewrite app_nil_r, Hs, Hk.
  - inversion_clear Hl as [|?? Hx Hr]. rewrite run_cons.
    rewrite (loop_body_idle st line Hs Hk Hx).
    rewrite IH by done. simpl. by rewrite <-app_assoc.
Qed.

(** While [skip_depth] is positive, lines other than else- and end-markers
    keep it positive. *)
Lemma loop_body_skipping st line :
  0 < skip_depth st → closes_nothing line →
  0 < skip_depth (loop_body st line).
Proof.
  intros Hs [H1 H2]. rewrite loop_body_classify. unfold emit.
  destruct (classify line); try done; simpl; try lia.
  case_match; simpl; lia.
Qed.

Lemma run_skipping st lines :
  0 < skip_depth st → Forall closes_nothing lines →
  0 < skip_depth (run st lines) ∧ emitted st lines = [].
Proof.
  revert st. induction lines as [|line lines IH]; intros st Hs Hl; [done|].
  inversion_clear Hl as [|?? Hx Hr]. rewrite run_cons, emitted_cons.
  rewrite emitted_one_skipping by lia.
  apply IH; [by apply loop_body_skipping | done].
Qed.

End FilterFacts.

(** ** Facts about the walk and the rewrite loop *)

Module DriverFacts.

Import Py PyFacts Filter Driver.

(** Induction on a directory tree, with the property in hand for every
    sub-directory. *)
Lemma tree_induction (P : tree → Prop) :
  (∀ subdirs files, Forall (λ d, P d.2) subdirs → P (Dir subdirs files)) →
  ∀ t, P t.
Proof.
  intros step. fix IH 1. intros [subdirs files]. apply step.
  induction subdirs as [|[name sub] rest IHrest]; constructor.
  - apply IH.
  - apply IHrest.
Qed.

Section Walker.

Variable sep : ascii.

Lemma walk_unfold top subdirs files :
  walk sep top (Dir subdirs files) =
  (top, map fst subdirs, files) ::
  flat_map (λ d, walk sep (join sep top d.1) d.2) subdirs.
Proof.
  simpl. f_equal.
  induction subdirs as [|[name sub] rest IH]; simpl; [done|]. by rewrite IH.
Qed.

Lemma plain_tree_unfold subdirs files :
  plain_tree sep (Dir subdirs files) = true ↔
  Forall (λ d, plain sep d.1 = true ∧ plain_tree sep d.2 = true) subdirs.
Proof.
  simpl. induction subdirs as [|[name sub] rest IH]; simpl.
  - split; [constructor | done].
  - rewrite !andb_true_iff, IH, Forall_cons. simpl. tauto.
Qed.

(** Joining a plain name keeps every substring of the directory path. *)
Lemma join_contains token path name :
  plain sep name = true → contains token path = true →
  contains token (join sep path name) = true.
Proof.
  unfold plain, join. intros Hp Hc.
  destruct (startswith (sep_str sep) name); [done|].
  destruct (_ || _); by apply contains_app.
Qed.

(** Below a path that carries a token, every walked directory carries it. *)
Lemma walk_roots_contain token t :
  ∀ top, plain_tree sep t = true → contains token top = true →
  Forall (λ e, contains token e.1.1 = true) (walk sep top t).
Proof.
  induction t as [subdirs files IH] using tree_induction.
  intros top Hplain Htop. rewrite walk_unfold. constructor; [done|].
  apply plain_tree_unfold in Hplain.
  induction subdirs as [|[name sub] rest IHrest]; simpl; [constructor|].
  inversion_clear IH as [|?? IHsub IHtail].
  inversion_clear Hplain as [|?? [Hname Hsub] Htail]. simpl in *.
  apply Forall_app. split.
  - apply IHsub; [done|]. by apply join_contains.
  - by apply IHrest.
Qed.

Lemma collect_file_acc root files acc :
  fold_left (collect_file sep root) files acc =
  acc ++ fold_left (collect_file sep root) files [].
Proof.
  revert acc. induction files as [|file files IH]; intros acc; simpl.
  - by rewrite app_nil_r.
  - rewrite (IH (collect_file sep root acc file)),
      (IH (collect_file sep root [] file)).
    unfold collect_file. destruct (_ || _); simpl; [|done].
    by rewrite <-app_assoc.
Qed.

Lemma collect_acc acc entry :
  collect sep acc entry = acc ++ collect sep [] entry.
Proof.
  destruct entry as [[root dirs] files]. simpl.
  destruct (contains "vulkan" root).
  - by rewrite app_nil_r.
  - apply collect_file_acc.
Qed.

Lemma fold_collect_acc entries acc :
  fold_left (collect sep) entries acc = acc ++ files_to_process sep entries.
Proof.
  unfold files_to_process. revert acc.
  induction entries as [|entry entries IH]; intros acc; simpl.
  - by rewrite app_nil_r.
  - rewrite (IH (collect sep acc entry)), (IH (collect sep [] entry)).
    by rewrite (collect_acc acc), app_assoc.
Qed.

Lemma files_to_process_app e1 e2 :
  files_to_process sep (e1 ++ e2) =
  files_to_process sep e1 ++ files_to_process sep e2.
Proof.
  unfold files_to_process at 1. rewrite fold_left_app.
  apply fold_collect_acc.
Qed.

(** Directories whose path carries the token contribute no candidate. *)
Lemma files_to_process_excluded entries :
  Forall (λ e, contains "vulkan" e.1.1 = true) entries →
  files_to_process sep entries = [].
Proof.
  induction 1 as [|[[root dirs] files] entries Hroot _ IH]; [done|].
  change (files_to_process sep ([(root, dirs, files)] ++ entries) = []).
  rewrite files_to_process_app, IH, app_nil_r.
  unfold files_to_process. simpl in *. by rewrite Hroot.
Qed.

(** The walk of a directory of the tree is a segment of the whole walk. *)
Lemma walk_subtree top t p s :
  subtree sep top t p s →
  ∃ before after, walk sep top t = before ++ walk sep p s ++ after.
Proof.
  induction 1 as [top t | top subdirs files name sub p s Hin _ IH].
  - exists [], []. by rewrite app_nil_r.
  - destruct IH as (b & a & IH).
    apply list_elem_of_split in Hin as (l1 & l2 & ->).
    rewrite walk_unfold, flat_map_app. simpl. rewrite IH.
    exists ((top, map fst (l1 ++ (name, sub) :: l2), files) ::
            flat_map (λ d, walk sep (join sep top d.1) d.2) l1 ++ b),
      (a ++ flat_map (λ d, walk sep (join sep top d.1) d.2) l2).
    simpl. f_equal. by rewrite <-!(assoc_L (++)).
Qed.

End Walker.

(** The rewrite loop touches the files it is given and no other. *)
Lemma rewrite_file_frame s s' filepath path :
  rewrite_file s filepath = Some s' → path ≠ filepath →
  contents s'.1 !! path = contents s.1 !! path.
Proof.
  destruct s as [w n]. unfold rewrite_file, process_file.
  destruct (contents w !! filepath) as [original|]; simpl; [|done].
  case_bool_decide; intros [= <-] Hne; simpl; [|done].
  by rewrite lookup_insert_ne.
Qed.

Lemma rewrite_all_frame paths s s' path :
  rewrite_all s paths = Some s' → path ∉ paths →
  contents s'.1 !! path = contents s.1 !! path.
Proof.
  revert s. induction paths as [|filepath paths IH]; intros s; simpl.
  - by intros [= <-].
  - destruct (rewrite_file s filepath) as [s1|] eqn:E; simpl; [|done].
    intros Hrun [Hne Hnin]%not_elem_of_cons.
    rewrite (IH s1 Hrun Hnin). by apply (rewrite_file_frame s s1 filepath).
Qed.

Lemma clean_renderer_files_frame sep base_path t w w' path :
  clean_renderer_files sep base_path t w = Some w' →
  path ∉ files_to_process sep
    (walk sep (join sep (join sep (join sep base_path "src") "engine") "renderer") t) →
  contents w' !! path = contents w !! path.
Proof.
  unfold clean_renderer_files. intros Hrun Hnin.
  destruct (rewrite_all _ _) as [[w2 n]|] eqn:E; simpl in Hrun; [|done].
  injection Hrun as <-. simpl.
  apply (rewrite_all_frame _ _ _ path E Hnin).
Qed.

End DriverFacts.

(** ** The properties of the filter *)

Import Py PyFacts Filter FilterFacts Driver DriverFacts.

(** C1 (scenario A): on the five lines [#ifndef USE_VULKAN], [gl_code();],
    [#else], [vk_code();], [#endif] the filter returns exactly the one line
    [vk_code();]: the discarded body and the three directive lines are gone,
    the retained body survives. *)
Example scenario_a :
  process_lines
    [ln "#ifndef USE_VULKAN"; ln "gl_code();"; ln "#else"; ln "vk_code();";
     ln "#endif"]
  = [ln "vk_code();"].
Proof. reflexivity. Qed.




(** C3: the filter is idempotent: filtering its own output changes
    nothing. *)
Theorem process_lines_idempotent (lines : list string) :
  process_lines (process_lines lines) = process_lines lines.
Proof.
  unfold process_lines at 1.
  rewrite (run_idle initial); [done..|].
  apply (emitted_no_opener initial).
Qed.

(** C4, as stated, fails: in a well nested input, a nested retain block
    inside a discard block holds an inner conditional; its [#endif] brings
    [skip_depth] back to zero and the next line of the retain block's body,
    which is not a directive, is emitted. *)
Lemma nested_retain_body_line_emitted :
  let d := ln "#ifndef USE_VULKAN" in
  let r := ln "#ifdef USE_VULKAN" in
  let body := [ln "#ifdef DEBUG"; ln "x"; ln "#endif"; ln "b"] in
  classify d = OpenDiscard ∧ classify r = OpenRetain ∧
  well_nested body ∧
  well_nested ([d; r] ++ body ++ [ln "#endif"; ln "#endif"]) ∧
  is_directive (ln "b") = false ∧
  emitted (run initial [d; r]) body = [ln "b"] ∧
  skip_depth (run initial ([d; r] ++ [ln "#ifdef DEBUG"; ln "x"; ln "#endif"])) = 0 ∧
  process_lines ([d; r] ++ body ++ [ln "#endif"; ln "#endif"])
  = [ln "b"; ln "#endif"].
Proof. repeat split; reflexivity. Qed.

(** C4, amended: when an open-discard directive line is followed by a
    nested open-retain directive line and no else- or end-marker stands
    between the open-discard line and the end of the retain block's body,
    [skip_depth > 0] all through that body, whatever [keep_depth] is, and
    no line of the body is emitted: the output is that of the lines before
    the discard block followed by what the lines after the body add. *)
Theorem nested_retain_body_discarded
  (pre : list string) (d : string) (mid : list string) (r : string)
  (body post : list string) :
  classify d = OpenDiscard → classify r = OpenRetain →
  Forall closes_nothing (mid ++ body) →
  let st := run initial (pre ++ d :: mid ++ [r]) in
  (∀ n, 0 < skip_depth (run st (take n body))) ∧
  emitted st body = [] ∧
  process_lines (pre ++ d :: mid ++ r :: body ++ post)
  = process_lines pre ++ emitted (run st body) post.
Proof.
  intros Hd Hr [Hmid Hbody]%Forall_app st.
  assert (closes_nothing d ∧ closes_nothing r) as [Hcd Hcr].
  { unfold closes_nothing. rewrite Hd, Hr. done. }
  assert (0 < skip_depth (loop_body (run initial pre) d)) as H1.
  { destruct (run_nonneg initial pre) as [Hs _]; [done..|].
    rewrite loop_body_classify, Hd. simpl. lia. }
  assert (Forall closes_nothing (mid ++ [r])) as Hmr.
  { apply Forall_app. split; [done | by constructor]. }
  destruct (run_skipping _ _ H1 Hmr) as [H2 E2].
  assert (st = run (loop_body (run initial pre) d) (mid ++ [r])) as Est.
  { unfold st. by rewrite run_app. }
  rewrite <-Est in H2.
  split; [|split].
  - intros n. apply run_skipping; [done|].
    by apply Forall_take.
  - by apply run_skipping.
  - replace (pre ++ d :: mid ++ r :: body ++ post)
      with ((pre ++ d :: mid ++ [r]) ++ body ++ post)
      by (by rewrite <-!app_assoc; simpl; rewrite <-app_assoc).
    rewrite process_lines_app. fold st.
    rewrite emitted_app.
    destruct (run_skipping st body H2 Hbody) as [_ ->].
    rewrite process_lines_app, emitted_cons, E2.
    rewrite emitted_one, Hd. simpl. by rewrite app_nil_r.
Qed.

Lemma nested_retain_body_discarded_witness :
  emitted
    (run initial
       ([ln "a"] ++ ln "#ifndef USE_VULKAN" :: [ln "gl();"] ++ [ln "#ifdef USE_VULKAN"]))
    [ln "vk();"] = [] ∧
  process_lines
    ([ln "a"] ++ ln "#ifndef USE_VULKAN" :: [ln "gl();"] ++
     ln "#ifdef USE_VULKAN" :: [ln "vk();"] ++ [ln "#endif"; ln "#endif"; ln "z"])
  = [ln "a"; ln "z"].
Proof.
  destruct (nested_retain_body_discarded
              [ln "a"] (ln "#ifndef USE_VULKAN") [ln "gl();"]
              (ln "#ifdef USE_VULKAN") [ln "vk();"]
              [ln "#endif"; ln "#endif"; ln "z"]) as (_ & Hbody & Hall).
  - reflexivity.
  - reflexivity.
  - repeat constructor; discriminate.
  - split; [exact Hbody|]. rewrite Hall. reflexivity.
Defined.

(** C5: an else- or end-marker (a directive line that carries the else- or
    the end-token and, the first match winning, neither opening token) met
    while [skip_depth] and [keep_depth] are both zero leaves both counters
    at zero and is appended to the output as it is, like an ordinary
    line. *)
Theorem unopened_else_end_pass_through (pre : list string) (line : string) :
  skip_depth (run initial pre) = 0 → keep_depth (run initial pre) = 0 →
  classify line = ElseMarker ∨ classify line = EndMarker →
  run initial (pre ++ [line]) = LoopState 0 0 (process_lines pre ++ [line]).
Proof.
  intros Hs Hk Hc. rewrite run_app.
  change (run (run initial pre) [line]) with (loop_body (run initial pre) line).
  apply loop_body_idle; [done..|].
  apply opener_false_classify. tauto.
Qed.

Lemma unopened_else_end_pass_through_witness :
  run initial ([ln "#ifdef USE_VULKAN"; ln "vk();"; ln "#endif"] ++ [ln "  #else"])
  = LoopState 0 0
      (process_lines [ln "#ifdef USE_VULKAN"; ln "vk();"; ln "#endif"] ++ [ln "  #else"]).
Proof.
  apply (unopened_else_end_pass_through
           [ln "#ifdef USE_VULKAN"; ln "vk();"; ln "#endif"] (ln "  #else")).
  - reflexivity.
  - reflexivity.
  - left. reflexivity.
Defined.

(** C8: within one pass both counters are zero before the first line and
    neither is below zero after any number of lines, whatever the input. *)
Theorem counters_non_negative (lines : list string) (n : nat) :
  skip_depth initial = 0 ∧ keep_depth initial = 0 ∧
  0 ≤ skip_depth (run initial (take n lines)) ∧
  0 ≤ keep_depth (run initial (take n lines)).
Proof.
  split; [done|]. split; [done|]. by apply run_nonneg.
Qed.

(** C9: an end-marker met while [skip_depth > 0] and [keep_depth > 0]
    decrements [skip_depth] and leaves [keep_depth] alone, also when the
    innermost open region is a retain region; so on the well nested input
    [#ifndef USE_VULKAN], [a], [#ifdef USE_VULKAN], [b], [#endif], [c],
    [#endif] the filter returns the one line [c], a line of the outer
    discard block. *)
Theorem end_marker_prefers_skip_depth (st : loop_state) (line : string) :
  classify line = EndMarker →
  0 < skip_depth st → 0 < keep_depth st →
  loop_body st line
  = LoopState (skip_depth st - 1) (keep_depth st) (output_lines st) ∧
  process_lines
    [ln "#ifndef USE_VULKAN"; ln "a"; ln "#ifdef USE_VULKAN"; ln "b";
     ln "#endif"; ln "c"; ln "#endif"]
  = [ln "c"].
Proof.
  intros Hc Hs Hk. split; [|reflexivity].
  rewrite loop_body_classify, Hc.
  by apply Z.ltb_lt in Hs as ->.
Qed.

Lemma end_marker_prefers_skip_depth_witness :
  let st := run initial [ln "#ifndef USE_VULKAN"; ln "a"; ln "#ifdef USE_VULKAN"; ln "b"] in
  skip_depth st = 1 ∧ keep_depth st = 1 ∧
  loop_body st (ln "#endif") = LoopState 0 1 [].
Proof.
  split; [reflexivity|]. split; [reflexivity|].
  apply (end_marker_prefers_skip_depth
           (run initial [ln "#ifndef USE_VULKAN"; ln "a"; ln "#ifdef USE_VULKAN"; ln "b"])
           (ln "#endif")).
  - reflexivity.
  - reflexivity.
  - reflexivity.
Defined.

(** C10: no line of the output is a directive line that carries the
    open-discard or the open-retain token: in any state such a line adds one
    to its counter ([skip_depth] for the open-discard token, which is tested
    first, [keep_depth] otherwise) and leaves the output as it was. *)
Theorem opening_directives_never_emitted
  (lines : list string) (st : loop_state) (line : string) :
  Forall (λ x, opener x = false) (process_lines lines) ∧
  (opener line = true →
   loop_body st line =
   if contains open_discard (strip line)
   then LoopState (skip_depth st + 1) (keep_depth st) (output_lines st)
   else LoopState (skip_depth st) (keep_depth st + 1) (output_lines st)).
Proof.
  split; [apply (emitted_no_opener initial)|].
  unfold opener, is_directive, loop_body.
  destruct (startswith "#" (strip line)); [|done].
  destruct (contains open_discard (strip line)); [done|].
  destruct (contains open_retain (strip line)); done.
Qed.

Lemma opening_directives_never_emitted_witness :
  loop_body (LoopState 1 0 [ln "x"]) (ln "  #ifdef USE_VULKAN // vk")
  = LoopState 1 1 [ln "x"].
Proof.
  apply (opening_directives_never_emitted []
           (LoopState 1 0 [ln "x"]) (ln "  #ifdef USE_VULKAN // vk")).
  reflexivity.
Defined.

(** ** The properties of the driver *)

(** C6: a directory of the walked tree whose path carries [vulkan] (as a
    case-sensitive substring) contributes no candidate, and neither does any
    directory below it, whatever the extensions of the files there: the
    walk of that directory is a segment of the whole walk, the candidates
    are those of the entries before and after it, and a run of the driver
    leaves every file that is not a candidate as it was. *)
Theorem excluded_subtree_untouched
  (sep : ascii) (base_path : string) (t : tree) (p : string) (s : tree)
  (w w' : world) :
  let renderer_path :=
    join sep (join sep (join sep base_path "src") "engine") "renderer" in
  subtree sep renderer_path t p s →
  plain_tree sep s = true →
  contains "vulkan" p = true →
  files_to_process sep (walk sep p s) = [] ∧
  (∃ before after,
     walk sep renderer_path t = before ++ walk sep p s ++ after ∧
     files_to_process sep (walk sep renderer_path t)
     = files_to_process sep before ++ files_to_process sep after) ∧
  (clean_renderer_files sep base_path t w = Some w' →
   ∀ path, path ∉ files_to_process sep (walk sep renderer_path t) →
           contents w' !! path = contents w !! path).
Proof.
  intros renderer_path Hsub Hplain Hp.
  assert (files_to_process sep (walk sep p s) = []) as Hnone.
  { apply files_to_process_excluded. by apply walk_roots_contain. }
  split; [done|]. split.
  - destruct (walk_subtree sep _ _ _ _ Hsub) as (before & after & E).
    exists before, after. split; [done|].
    by rewrite E, !files_to_process_app, Hnone.
  - intros Hrun path Hpath.
    by apply (clean_renderer_files_frame sep base_path t w w' path).
Qed.

Lemma excluded_subtree_untouched_witness :
  let vk := Dir [("shaders", Dir [] ["gen.c"])] ["vk.c"; "vk.h"] in
  let t := Dir [("vulkan", vk)] ["tr_main.c"; "notes.txt"] in
  let w :=
    World (list_to_map
             [("q3/src/engine/renderer/tr_main.c",
               [ln "#ifndef USE_VULKAN"; ln "gl();"; ln "#endif"; ln "x"]);
              ("q3/src/engine/renderer/vulkan/vk.c",
               [ln "#ifndef USE_VULKAN"; ln "gl();"; ln "#endif"])]) [] in
  files_to_process "/" (walk "/" "q3/src/engine/renderer/vulkan" vk) = [] ∧
  files_to_process "/" (walk "/" "q3/src/engine/renderer" t)
  = ["q3/src/engine/renderer/tr_main.c"] ∧
  ∃ w', clean_renderer_files "/" "q3" t w = Some w' ∧
        contents w' !! "q3/src/engine/renderer/vulkan/vk.c"
        = Some [ln "#ifndef USE_VULKAN"; ln "gl();"; ln "#endif"].
Proof.
  intros vk t w.
  destruct (clean_renderer_files "/" "q3" t w) as [w'|] eqn:Hrun;
    [|vm_compute in Hrun; discriminate Hrun].
  destruct (excluded_subtree_untouched "/" "q3" t
              "q3/src/engine/renderer/vulkan" vk w w')
    as (Hnone & _ & Hframe).
  - apply (subtree_below "/" "q3/src/engine/renderer" _ _ "vulkan" vk).
    + apply list_elem_of_here.
    + apply subtree_here.
  - reflexivity.
  - reflexivity.
  - split; [exact Hnone|]. split; [reflexivity|].
    exists w'. split; [reflexivity|].
    rewrite (Hframe Hrun "q3/src/engine/renderer/vulkan/vk.c").
    + reflexivity.
    + vm_compute. intros H. apply list_elem_of_In in H.
      destruct H as [H|[]]. discriminate H.
Defined.



(** ** Further facts about the string primitives *)

Module PyMore.

Import Py PyFacts.

#[local] Arguments String.append : simpl nomatch.

Lemma append_assoc (a b c : string) : (a +:+ b) +:+ c = a +:+ b +:+ c.
Proof. induction a as [|x a IH]; simpl; [done | by f_equal]. Qed.

Lemma append_nil_r (a : string) : a +:+ "" = a.
Proof. induction a as [|x a IH]; simpl; [done | by f_equal]. Qed.

Lemma startswith_iff p s :
  startswith p s = true ↔ ∃ r, s = p +:+ r.
Proof.
  revert s. induction p as [|a p IH]; intros s; simpl.
  - split; [by exists s | done].
  - destruct s as [|b s].
    + split; [done | by intros [r Hr]].
    + destruct (Ascii.eqb_spec a b) as [->|Hne].
      * rewrite IH. split; intros [r Hr]; exists r; congruence.
      * split; [done | intros [r Hr]; congruence].
Qed.

Lemma contains_iff t s :
  contains t s = true ↔ ∃ a b, s = a +:+ t +:+ b.
Proof.
  induction s as [|c s IH]; simpl.
  - rewrite orb_false_r, startswith_iff. split.
    + intros [r Hr]. by exists "", r.
    + intros (a & b & H). destruct a; [by exists b|done].
  - rewrite orb_true_iff, startswith_iff, IH. split.
    + intros [[r Hr] | (a & b & Hs)].
      * by exists "", r.
      * exists (String c a), b. simpl. by rewrite Hs.
    + intros ([|x a] & b & H); simpl in H.
      * left. by exists b.
      * right. exists a, b. congruence.
Qed.

Lemma endswith_iff e s :
  endswith e s = true ↔ ∃ a, s = a +:+ e.
Proof.
  induction s as [|c s IH]; simpl.
  - rewrite orb_false_r. split.
    + intros ->%String.eqb_eq. by exists "".
    + intros (a & H). destruct a, e; simpl in *; try done.
  - rewrite orb_true_iff, IH. split.
    + intros [->%String.eqb_eq | (a & ->)].
      * by exists "".
      * by exists (String c a).
    + intros ([|x a] & H); simpl in H.
      * left. apply String.eqb_eq. done.
      * right. exists a. congruence.
Qed.

Lemma endswith_app e a s :
  endswith e s = true → endswith e (a +:+ s) = true.
Proof.
  rewrite !endswith_iff. intros (x & ->). exists (a +:+ x).
  by rewrite append_assoc.
Qed.

Lemma allspace_app a b :
  allspace (a +:+ b) = allspace a && allspace b.
Proof.
  induction a as [|c a IH]; simpl; [done|]. by rewrite IH, andb_assoc.
Qed.

Lemma lstrip_allspace a s : allspace a = true → lstrip (a +:+ s) = lstrip s.
Proof.
  induction a as [|c a IH]; simpl; [done|].
  intros [Hc Ha]%andb_true_iff. rewrite Hc. by apply IH.
Qed.

Lemma rstrip_allspace b : allspace b = true → rstrip b = "".
Proof.
  induction b as [|c b IH]; simpl; [done|].
  intros [Hc Hb]%andb_true_iff. by rewrite (IH Hb), Hc.
Qed.

Lemma rstrip_app_allspace s b :
  allspace b = true → rstrip (s +:+ b) = rstrip s.
Proof.
  intros Hb. induction s as [|c s IH]; simpl.
  - by apply rstrip_allspace.
  - by rewrite IH.
Qed.

Lemma lstrip_spec s :
  ∃ a, s = a +:+ lstrip s ∧ allspace a = true ∧ head_space (lstrip s) = false.
Proof.
  induction s as [|c s (a & Hs & Ha & Hh)]; simpl.
  - by exists "".
  - destruct (isspace c) eqn:Hc.
    + exists (String c a). simpl. rewrite Hc, Ha. by rewrite <-Hs.
    + by exists "".
Qed.

Lemma rstrip_spec s :
  ∃ b, s = rstrip s +:+ b ∧ allspace b = true ∧ last_space (rstrip s) = false.
Proof.
  induction s as [|c s (b & Hs & Hb & Hl)]; simpl.
  - by exists "".
  - destruct (rstrip s) as [|c' r'] eqn:E.
    + simpl in Hs. subst s. destruct (isspace c) eqn:Hc.
      * exists (String c b). simpl. by rewrite Hc, Hb.
      * exists b. simpl. by rewrite Hc.
    + exists b. simpl in *. by rewrite <-Hs.
Qed.

Lemma rstrip_head_space s :
  head_space s = false → head_space (rstrip s) = false.
Proof.
  destruct s as [|c s]; simpl; [done|]. intros Hc.
  destruct (rstrip s); simpl; by rewrite ?Hc.
Qed.

End PyMore.

(** ** Further facts about the loop *)

Module FilterMore.

Import Py PyFacts PyMore Filter FilterFacts.

#[local] Arguments String.append : simpl nomatch.

Lemma lstrip_all_space b : allspace b = true → lstrip b = "".
Proof.
  intros Hb. rewrite <-(append_nil_r b). by rewrite lstrip_allspace.
Qed.

Lemma strip_app_allspace s b : allspace b = true → strip (s +:+ b) = strip s.
Proof.
  intros Hb. unfold strip. induction s as [|c s IH]; simpl.
  - rewrite (lstrip_all_space b Hb). done.
  - destruct (isspace c); [done|].
    apply (rstrip_app_allspace (String c s) b Hb).
Qed.

Lemma strip_padding a s b :
  allspace a = true → allspace b = true → strip (a +:+ s +:+ b) = strip s.
Proof.
  intros Ha Hb. unfold strip. rewrite lstrip_allspace by done.
  by apply strip_app_allspace.
Qed.

Lemma classify_strip l1 l2 : strip l1 = strip l2 → classify l1 = classify l2.
Proof. unfold classify. by intros ->. Qed.

Lemma loop_body_strip st l1 l2 :
  strip l1 = strip l2 →
  skip_depth (loop_body st l1) = skip_depth (loop_body st l2) ∧
  keep_depth (loop_body st l1) = keep_depth (loop_body st l2).
Proof.
  intros E. rewrite !loop_body_classify, (classify_strip l1 l2 E).
  unfold emit. by repeat case_match.
Qed.

(** Lines that are no region control: appended as they are while
    [skip_depth] is zero, dropped otherwise; the counters stay. *)
Lemma run_ordinary st lines :
  Forall (λ x, classify x = Ordinary) lines →
  run st lines =
  if skip_depth st =? 0
  then LoopState (skip_depth st) (keep_depth st) (output_lines st ++ lines)
  else st.
Proof.
  revert st. induction lines as [|line lines IH]; intros st Hl.
  - destruct st as [s k o]. simpl. rewrite app_nil_r. by case_match.
  - inversion_clear Hl as [|?? Hx Hr]. rewrite run_cons, (IH _ Hr).
    rewrite loop_body_classify, Hx. unfold emit.
    destruct (skip_depth st =? 0) eqn:E; simpl; rewrite E; [|done].
    by rewrite <-app_assoc.
Qed.

Lemma process_lines_no_opener lines :
  Forall (λ x, opener x = false) lines → process_lines lines = lines.
Proof.
  intros H. unfold process_lines. by rewrite (run_idle initial).
Qed.

Lemma process_lines_fixed lines :
  process_lines (process_lines lines) = process_lines lines.
Proof. apply process_lines_no_opener, (emitted_no_opener initial). Qed.

Lemma emitted_idle st lines :
  skip_depth st = 0 → keep_depth st = 0 → emitted st lines = process_lines lines.
Proof.
  intros Hs Hk. unfold emitted, process_lines, clear. by rewrite Hs, Hk.
Qed.

End FilterMore.

(** ** Further properties of the filter *)

Import PyMore FilterMore.

#[local] Arguments run : simpl never.

(** X1: the three string tests mean what Python says: [p] is a prefix of
    [s], [t] occurs in [s] as a contiguous run of characters, [e] is a
    suffix of [s]. *)
Theorem string_tests_spec (t s : string) :
  (startswith t s = true ↔ ∃ r, s = t +:+ r) ∧
  (contains t s = true ↔ ∃ a b, s = a +:+ t +:+ b) ∧
  (endswith t s = true ↔ ∃ a, s = a +:+ t).
Proof.
  split; [apply startswith_iff|]. split; [apply contains_iff|].
  apply endswith_iff.
Qed.

(** X2: [strip] removes exactly the whitespace at both ends: the string is
    its trimmed content between two runs of whitespace, and the trimmed
    content neither begins nor ends with whitespace. *)
Theorem strip_spec (s : string) :
  ∃ a b, s = a +:+ strip s +:+ b ∧
         allspace a = true ∧ allspace b = true ∧
         head_space (strip s) = false ∧ last_space (strip s) = false.
Proof.
  destruct (lstrip_spec s) as (a & Hs & Ha & Hh).
  destruct (rstrip_spec (lstrip s)) as (b & Hl & Hb & Hlast).
  exists a, b. unfold strip. split; [by rewrite <-Hl|].
  split; [done|]. split; [done|]. split; [by apply rstrip_head_space | done].
Qed.

(** X3: indentation, trailing blanks and the line terminator do not matter
    to the filter: a line padded with whitespace on either side is
    classified like the line itself and moves the counters the same way. *)
Theorem classify_ignores_padding
  (a line b : string) (st : loop_state) :
  allspace a = true → allspace b = true →
  classify (a +:+ line +:+ b) = classify line ∧
  skip_depth (loop_body st (a +:+ line +:+ b)) = skip_depth (loop_body st line) ∧
  keep_depth (loop_body st (a +:+ line +:+ b)) = keep_depth (loop_body st line).
Proof.
  intros Ha Hb. pose proof (strip_padding a line b Ha Hb) as E.
  split; [by apply classify_strip | by apply loop_body_strip].
Qed.

Lemma classify_ignores_padding_witness :
  classify ("  	" +:+ "#ifndef USE_VULKAN" +:+ LF) = OpenDiscard.
Proof.
  destruct (classify_ignores_padding "  	" "#ifndef USE_VULKAN" LF initial)
    as [-> _]; reflexivity.
Defined.

(** X4: the filter returns its input unchanged exactly when no line of the
    input is a directive line that carries an opening token. *)
Theorem unchanged_iff_no_opening_directive (lines : list string) :
  process_lines lines = lines ↔ Forall (λ x, opener x = false) lines.
Proof.
  split.
  - intros E. rewrite <-E. apply (emitted_no_opener initial).
  - apply process_lines_no_opener.
Qed.

(** X5: a block opened by the open-discard token while both counters are
    zero, whose bodies hold no region control: without an else-marker the
    whole block adds nothing to the output; with one, exactly the lines
    after the else-marker are appended.  Either way both counters are zero
    again after the end-marker. *)
Theorem discard_block
  (st : loop_state) (d e f : string) (b1 b2 : list string) :
  skip_depth st = 0 → keep_depth st = 0 →
  classify d = OpenDiscard → classify e = ElseMarker → classify f = EndMarker →
  Forall (λ x, classify x = Ordinary) b1 →
  Forall (λ x, classify x = Ordinary) b2 →
  run st (d :: b1 ++ [f]) = LoopState 0 0 (output_lines st) ∧
  run st (d :: b1 ++ e :: b2 ++ [f]) = LoopState 0 0 (output_lines st ++ b2).
Proof.
  intros Hs Hk Hd He Hf H1 H2.
  rewrite !run_cons, loop_body_classify, Hd, Hs, Hk. simpl. split.
  - rewrite run_app, (run_ordinary _ b1 H1). simpl.
    change (run ?s [f]) with (loop_body s f).
    by rewrite loop_body_classify, Hf.
  - rewrite run_app, (run_ordinary _ b1 H1). simpl.
    rewrite run_cons, loop_body_classify, He. simpl.
    rewrite run_app, (run_ordinary _ b2 H2). simpl.
    change (run ?s [f]) with (loop_body s f).
    by rewrite loop_body_classify, Hf.
Qed.

Lemma discard_block_witness :
  run (LoopState 0 0 [ln "a"])
    (ln "#ifndef USE_VULKAN" :: [ln "gl();"] ++ ln "#else" :: [ln "vk();"] ++ [ln "#endif"])
  = LoopState 0 0 ([ln "a"] ++ [ln "vk();"]).
Proof.
  apply (discard_block (LoopState 0 0 [ln "a"])
           (ln "#ifndef USE_VULKAN") (ln "#else") (ln "#endif")
           [ln "gl();"] [ln "vk();"]);
    try reflexivity; repeat constructor.
Defined.

(** X6: a block opened by the open-retain token while both counters are
    zero, whose bodies hold no region control: without an else-marker its
    body is appended; with one, exactly the lines before the else-marker
    are.  Either way both counters are zero again after the end-marker. *)
Theorem retain_block
  (st : loop_state) (r e f : string) (b1 b2 : list string) :
  skip_depth st = 0 → keep_depth st = 0 →
  classify r = OpenRetain → classify e = ElseMarker → classify f = EndMarker →
  Forall (λ x, classify x = Ordinary) b1 →
  Forall (λ x, classify x = Ordinary) b2 →
  run st (r :: b1 ++ [f]) = LoopState 0 0 (output_lines st ++ b1) ∧
  run st (r :: b1 ++ e :: b2 ++ [f]) = LoopState 0 0 (output_lines st ++ b1).
Proof.
  intros Hs Hk Hr He Hf H1 H2.
  rewrite !run_cons, loop_body_classify, Hr, Hs, Hk. simpl. split.
  - rewrite run_app, (run_ordinary _ b1 H1). simpl.
    change (run ?s [f]) with (loop_body s f).
    by rewrite loop_body_classify, Hf.
  - rewrite run_app, (run_ordinary _ b1 H1). simpl.
    rewrite run_cons, loop_body_classify, He. simpl.
    rewrite run_app, (run_ordinary _ b2 H2). simpl.
    change (run ?s [f]) with (loop_body s f).
    by rewrite loop_body_classify, Hf.
Qed.

Lemma retain_block_witness :
  run (LoopState 0 0 [ln "a"])
    (ln "#ifdef USE_VULKAN" :: [ln "vk();"] ++ ln "#else" :: [ln "gl();"] ++ [ln "#endif"])
  = LoopState 0 0 ([ln "a"] ++ [ln "vk();"]).
Proof.
  apply (retain_block (LoopState 0 0 [ln "a"])
           (ln "#ifdef USE_VULKAN") (ln "#else") (ln "#endif")
           [ln "vk();"] [ln "gl();"]);
    try reflexivity; repeat constructor.
Defined.

(** X7: an open-discard directive that is never closed silently drops the
    rest of the file: when no else- or end-marker follows it, the output is
    that of the lines before it. *)
Theorem unclosed_discard_drops_rest
  (pre : list string) (d : string) (rest : list string) :
  classify d = OpenDiscard → Forall closes_nothing rest →
  process_lines (pre ++ d :: rest) = process_lines pre.
Proof.
  intros Hd Hrest.
  rewrite process_lines_app, emitted_cons, emitted_one, Hd. simpl.
  destruct (run_skipping (loop_body (run initial pre) d) rest) as [_ ->];
    [|done|by rewrite app_nil_r].
  destruct (run_nonneg initial pre) as [Hs _]; [done..|].
  rewrite loop_body_classify, Hd. simpl. lia.
Qed.

Lemma unclosed_discard_drops_rest_witness :
  process_lines ([ln "a"] ++ ln "#ifndef USE_VULKAN" :: [ln "b"; ln "#ifdef X"; ln "c"])
  = process_lines [ln "a"].
Proof.
  apply (unclosed_discard_drops_rest [ln "a"] (ln "#ifndef USE_VULKAN")
           [ln "b"; ln "#ifdef X"; ln "c"]).
  - reflexivity.
  - repeat constructor; discriminate.
Defined.

(** X8: the filter works through a file piece by piece: when both counters
    are zero after a first piece, the output of the whole is the output of
    that piece followed by the output of the rest filtered on its own. *)
Theorem process_lines_app_balanced (l1 l2 : list string) :
  skip_depth (run initial l1) = 0 → keep_depth (run initial l1) = 0 →
  process_lines (l1 ++ l2) = process_lines l1 ++ process_lines l2.
Proof.
  intros Hs Hk. by rewrite process_lines_app, emitted_idle.
Qed.

Lemma process_lines_app_balanced_witness :
  process_lines
    ([ln "#ifndef USE_VULKAN"; ln "gl();"; ln "#endif"] ++
     [ln "#ifdef USE_VULKAN"; ln "vk();"; ln "#endif"])
  = process_lines [ln "#ifndef USE_VULKAN"; ln "gl();"; ln "#endif"] ++
    process_lines [ln "#ifdef USE_VULKAN"; ln "vk();"; ln "#endif"].
Proof.
  apply (process_lines_app_balanced
           [ln "#ifndef USE_VULKAN"; ln "gl();"; ln "#endif"]
           [ln "#ifdef USE_VULKAN"; ln "vk();"; ln "#endif"]);
    reflexivity.
Defined.

(** X9: the pass never looks ahead: what the filter emits for the first
    lines of a file stays a prefix of its output whatever lines follow. *)
Theorem process_lines_prefix_stable (l1 l2 : list string) :
  process_lines l1 `prefix_of` process_lines (l1 ++ l2).
Proof. rewrite process_lines_app. by apply prefix_app_r. Qed.

(** X10: a line that is no region control and is met while [skip_depth]
    is zero is kept as it is, whatever [keep_depth] is: it follows what the
    lines before it gave and precedes what the lines after it give. *)
Theorem ordinary_line_kept
  (pre : list string) (line : string) (post : list string) :
  classify line = Ordinary → skip_depth (run initial pre) = 0 →
  process_lines (pre ++ line :: post)
  = process_lines pre ++ line :: emitted (run initial pre) post.
Proof.
  intros Hc Hs.
  rewrite process_lines_app, emitted_cons, emitted_one, Hc, Hs. simpl.
  do 2 f_equal. rewrite loop_body_classify, Hc. unfold emit. rewrite Hs. simpl.
  unfold emitted, clear. simpl. by rewrite Hs.
Qed.

Lemma ordinary_line_kept_witness :
  process_lines ([ln "#ifdef USE_VULKAN"] ++ ln "#include <vk.h>" :: [ln "#endif"])
  = process_lines [ln "#ifdef USE_VULKAN"] ++
    ln "#include <vk.h>" :: emitted (run initial [ln "#ifdef USE_VULKAN"]) [ln "#endif"].
Proof.
  apply (ordinary_line_kept [ln "#ifdef USE_VULKAN"] (ln "#include <vk.h>")
           [ln "#endif"]); reflexivity.
Defined.

(** X11: in a block that is not nested (one counter is one, the other
    zero) an else-marker swaps the two counters, so every further
    else-marker of the same block flips it between discarding and retaining
    again; the output is not touched. *)
Theorem else_marker_swaps (st : loop_state) (line : string) :
  classify line = ElseMarker →
  0 ≤ skip_depth st → 0 ≤ keep_depth st →
  skip_depth st + keep_depth st = 1 →
  loop_body st line
  = LoopState (keep_depth st) (skip_depth st) (output_lines st).
Proof.
  intros Hc Hs Hk Hsum. rewrite loop_body_classify, Hc.
  destruct (Z.ltb_spec 0 (skip_depth st)), (Z.ltb_spec 0 (keep_depth st));
    try lia; f_equal; lia.
Qed.

Lemma else_marker_swaps_witness :
  loop_body (loop_body (LoopState 1 0 []) (ln "#else")) (ln "#else")
  = LoopState 1 0 [].
Proof.
  rewrite (else_marker_swaps (LoopState 1 0 []) (ln "#else"));
    [|reflexivity|simpl; lia|simpl; lia|reflexivity].
  apply (else_marker_swaps (LoopState 0 1 []) (ln "#else"));
    [reflexivity|simpl; lia|simpl; lia|reflexivity].
Defined.

(** ** Further facts about the walk and the rewrite loop *)

Module DriverMore.

Import Py PyFacts PyMore Filter FilterFacts FilterMore Driver DriverFacts.

#[local] Arguments String.append : simpl nomatch.

Section Walker.

Variable sep : ascii.

Lemma join_endswith e path name :
  endswith e name = true → endswith e (join sep path name) = true.
Proof.
  intros He. unfold join. repeat case_match; [done|by apply endswith_app|].
  by apply endswith_app, endswith_app.
Qed.

Lemma fold_collect_file root files :
  fold_left (collect_file sep root) files [] =
  map (join sep root) (List.filter candidate_name files).
Proof.
  induction files as [|file files IH]; simpl; [done|].
  rewrite collect_file_acc, IH. unfold collect_file.
  fold (candidate_name file). by destruct (candidate_name file).
Qed.

Lemma files_to_process_flat_map entries :
  files_to_process sep entries = flat_map (entry_candidates sep) entries.
Proof.
  induction entries as [|[[root dirs] files] entries IH]; [done|].
  change (files_to_process sep ([(root, dirs, files)] ++ entries) = 
          entry_candidates sep (root, dirs, files) ++
          flat_map (entry_candidates sep) entries).
  rewrite files_to_process_app, IH. f_equal.
  unfold files_to_process, entry_candidates. simpl.
  destruct (contains "vulkan" root); [done|]. apply fold_collect_file.
Qed.

Lemma files_to_process_names entries :
  Forall (λ p, candidate_name p = true) (files_to_process sep entries).
Proof.
  rewrite files_to_process_flat_map.
  induction entries as [|[[root dirs] files] entries IH]; simpl; [constructor|].
  apply Forall_app. split; [|done].
  unfold entry_candidates. simpl. destruct (contains "vulkan" root); [constructor|].
  apply Forall_map, Forall_forall.
  intros file [_ Hn]%list_elem_of_In%filter_In. simpl.
  unfold candidate_name in *.
  apply orb_true_iff in Hn as [H|H]; apply orb_true_iff; [left|right];
    by apply join_endswith.
Qed.

End Walker.

(** One iteration on a readable file, by cases. *)
Lemma rewrite_file_cases w c p l :
  contents w !! p = Some l →
  process_lines l = l ∧ rewrite_file (w, c) p = Some (w, c) ∨
  process_lines l ≠ l ∧
  rewrite_file (w, c) p
  = Some (World (<[p := process_lines l]> (contents w))
                (stdout w ++ ["Modified: " +:+ p]), c + 1).
Proof.
  intros Hp. unfold rewrite_file, process_file. rewrite Hp. simpl.
  case_bool_decide; [by right | left].
  split; [|done]. by destruct (decide (process_lines l = l)).
Qed.

Lemma rewrite_file_contents w c p l s' :
  contents w !! p = Some l → rewrite_file (w, c) p = Some s' →
  contents s'.1 = <[p := process_lines l]> (contents w).
Proof.
  intros Hp Hrun.
  destruct (rewrite_file_cases w c p l Hp) as [[E H] | [_ H]];
    rewrite H in Hrun; injection Hrun as <-; simpl; [|done].
  rewrite E. by rewrite insert_id.
Qed.

Lemma rewrite_file_is_Some w c p :
  is_Some (rewrite_file (w, c) p) ↔ is_Some (contents w !! p).
Proof.
  unfold rewrite_file, process_file.
  destruct (contents w !! p) as [l|]; simpl.
  - case_bool_decide; split; eauto.
  - split; intros [? ?]; done.
Qed.

Lemma rewrite_all_unfold s p paths :
  rewrite_all s (p :: paths) = rewrite_file s p ≫= λ s1, rewrite_all s1 paths.
Proof. done. Qed.

Lemma rewrite_all_cons s p paths s1 :
  rewrite_file s p = Some s1 →
  rewrite_all s (p :: paths) = rewrite_all s1 paths.
Proof. intros E. by rewrite rewrite_all_unfold, E. Qed.

Lemma rewrite_all_cons_None s p paths :
  rewrite_file s p = None → rewrite_all s (p :: paths) = None.
Proof. intros E. by rewrite rewrite_all_unfold, E. Qed.

(** The stored contents after the loop, file by file. *)
Lemma rewrite_all_contents paths s s' :
  rewrite_all s paths = Some s' →
  ∀ q, contents s'.1 !! q =
       if decide (q ∈ paths) then process_lines <$> contents s.1 !! q
       else contents s.1 !! q.
Proof.
  revert s. induction paths as [|p paths IH]; intros [w c].
  - intros [= <-] q. by rewrite decide_False by apply not_elem_of_nil.
  - destruct (rewrite_file (w, c) p) as [[w1 c1]|] eqn:E;
      [|by rewrite (rewrite_all_cons_None _ _ _ E)].
    rewrite (rewrite_all_cons _ _ _ _ E).
    intros Hrun q. rewrite (IH _ Hrun q). cbn [fst snd].
    assert (is_Some (contents w !! p)) as [l Hl].
    { apply (rewrite_file_is_Some w c p). by rewrite E. }
    pose proof (rewrite_file_contents w c p l _ Hl E) as Hc.
    cbn [fst snd] in Hc.
    rewrite Hc. destruct (decide (q = p)) as [->|Hne].
    + rewrite lookup_insert_eq, Hl.
      rewrite (decide_True _ _ (list_elem_of_here p paths)).
      case_decide; simpl; [by rewrite process_lines_fixed | done].
    + rewrite lookup_insert_ne by done.
      destruct (decide (q ∈ paths)) as [Hin|Hnin].
      * by rewrite decide_True by (by apply list_elem_of_further).
      * rewrite decide_False; [done|]. by intros [?|?]%elem_of_cons.
Qed.

Lemma rewrite_all_is_Some paths s :
  is_Some (rewrite_all s paths) ↔
  Forall (λ p, is_Some (contents s.1 !! p)) paths.
Proof.
  revert s. induction paths as [|p paths IH]; intros [w c].
  - split; [constructor | by eexists].
  - rewrite Forall_cons. cbn [fst].
    destruct (rewrite_file (w, c) p) as [[w1 c1]|] eqn:E.
    + rewrite (rewrite_all_cons _ _ _ _ E), IH. cbn [fst].
      assert (is_Some (contents w !! p)) as [l Hl].
      { apply (rewrite_file_is_Some w c p). by rewrite E. }
      pose proof (rewrite_file_contents w c p l _ Hl E) as Hc.
      cbn [fst] in Hc. rewrite Hc.
      assert (∀ q, is_Some (<[p:=process_lines l]> (contents w) !! q) ↔
                   is_Some (contents w !! q)) as Hdom.
      { intros q. destruct (decide (q = p)) as [->|Hne].
        - rewrite lookup_insert_eq, Hl. split; eauto.
        - by rewrite lookup_insert_ne. }
      split.
      * intros H. split; [eauto|].
        eapply Forall_impl; [exact H|]. intros q. apply Hdom.
      * intros [_ H].
        eapply Forall_impl; [exact H|]. intros q. apply Hdom.
    + rewrite (rewrite_all_cons_None _ _ _ E).
      split; [by intros [? ?]|].
      intros [H _]. apply (rewrite_file_is_Some w c p) in H.
      rewrite E in H. by destruct H.
Qed.

(** A loop over files that the filter leaves alone changes nothing. *)
Lemma rewrite_all_fixed paths w c :
  Forall (λ p, ∃ l, contents w !! p = Some l ∧ process_lines l = l) paths →
  rewrite_all (w, c) paths = Some (w, c).
Proof.
  induction 1 as [|p paths (l & Hl & Hfix) _ IH]; [done|].
  destruct (rewrite_file_cases w c p l Hl) as [[_ E] | [Hne _]]; [|done].
  by rewrite (rewrite_all_cons _ _ _ _ E).
Qed.

(** What the loop prints and counts. *)
Lemma rewrite_all_report paths s s' :
  rewrite_all s paths = Some s' →
  ∃ modified,
    modified `sublist_of` paths ∧
    stdout s'.1 = stdout s.1 ++ map (String.append "Modified: ") modified ∧
    s'.2 = s.2 + Z.of_nat (length modified) ∧
    ∀ p, p ∈ modified ↔
         p ∈ paths ∧ contents s'.1 !! p ≠ contents s.1 !! p.
Proof.
  revert s. induction paths as [|q paths IH]; intros [w c].
  - intros [= <-]. exists []. cbn [fst snd map length].
    split; [done|]. split; [by rewrite app_nil_r|]. split; [lia|].
    intros p. split; [by intros ?%elem_of_nil | by intros [?%elem_of_nil _]].
  - destruct (rewrite_file (w, c) q) as [[w1 c1]|] eqn:E;
      [|by rewrite (rewrite_all_cons_None _ _ _ E)].
    rewrite (rewrite_all_cons _ _ _ _ E). intros Hrun.
    assert (is_Some (contents w !! q)) as [l Hl].
    { apply (rewrite_file_is_Some w c q). by rewrite E. }
    pose proof (rewrite_all_contents _ _ _ Hrun) as Hfinal.
    destruct (IH _ Hrun) as (m & Hsub & Hout & Hcount & Hm).
    cbn [fst snd] in *.
    pose proof (rewrite_file_contents w c q l _ Hl E) as Hc.
    cbn [fst] in Hc.
    assert (contents s'.1 !! q = Some (process_lines l)) as Hq.
    { rewrite Hfinal, Hc, lookup_insert_eq.
      case_decide; simpl; [by rewrite process_lines_fixed | done]. }
    assert (∀ p, p ≠ q → contents w1 !! p = contents w !! p) as Hother.
    { intros p Hne. by rewrite Hc, lookup_insert_ne. }
    destruct (rewrite_file_cases w c q l Hl) as [[Hsame H] | [Hdiff H]];
      rewrite H in E; injection E as <- <-.
    + exists m. split; [by apply sublist_cons|]. split; [done|]. split; [done|].
      intros p. rewrite Hm, elem_of_cons. split; [tauto|].
      intros [[-> | Hin] Hne]; [|done].
      exfalso. apply Hne. by rewrite Hq, Hl, Hsame.
    + exists (q :: m). split; [by apply sublist_skip|].
      cbn [stdout map length] in *.
      split; [by rewrite Hout, <-app_assoc|]. split; [lia|].
      intros p. rewrite !elem_of_cons, Hm. split.
      * intros [-> | [Hin Hne]].
        -- split; [by left|]. rewrite Hq, Hl. congruence.
        -- split; [by right|]. destruct (decide (p = q)) as [->|Hpq].
           ++ rewrite Hq, Hl. congruence.
           ++ by rewrite <-(Hother p Hpq).
      * intros [[-> | Hin] Hne]; [by left|].
        destruct (decide (p = q)) as [->|Hpq]; [by left|].
        right. split; [done|]. by rewrite (Hother p Hpq).
Qed.

End DriverMore.

(** ** Further properties of the driver *)

Import DriverMore.

(** X12: the two collecting loops select, directory by directory in walk
    order, exactly the joined paths of the files whose name ends in [.c] or
    [.h], in listing order, and nothing from a directory whose path carries
    [vulkan]. *)
Theorem candidates_comprehension
  (sep : ascii) (entries : list (string * list string * list string)) :
  files_to_process sep entries = flat_map (entry_candidates sep) entries.
Proof. apply files_to_process_flat_map. Qed.

(** X13: a file whose path does not end in [.c] or [.h] is never a
    candidate, and a run of the driver leaves it as it was. *)
Theorem other_names_untouched
  (sep : ascii) (base_path : string) (t : tree) (w w' : world) (path : string) :
  clean_renderer_files sep base_path t w = Some w' →
  candidate_name path = false →
  (path ∉ files_to_process sep
     (walk sep (join sep (join sep (join sep base_path "src") "engine") "renderer") t)) ∧
  contents w' !! path = contents w !! path.
Proof.
  intros Hrun Hname.
  assert (path ∉ files_to_process sep
    (walk sep (join sep (join sep (join sep base_path "src") "engine") "renderer") t))
    as Hnot.
  { intros Hin.
    pose proof (files_to_process_names sep
      (walk sep (join sep (join sep (join sep base_path "src") "engine") "renderer") t))
      as Hall.
    rewrite Forall_forall in Hall. specialize (Hall path Hin). congruence. }
  split; [done|].
  by apply (clean_renderer_files_frame sep base_path t w w' path).
Qed.

Lemma other_names_untouched_witness :
  let t := Dir [] ["tr_main.c"; "README.md"] in
  let w :=
    World (list_to_map
             [("q3/src/engine/renderer/tr_main.c",
               [ln "#ifndef USE_VULKAN"; ln "gl();"; ln "#endif"]);
              ("q3/src/engine/renderer/README.md",
               [ln "#ifndef USE_VULKAN"; ln "text"; ln "#endif"])]) [] in
  ∃ w', clean_renderer_files "/" "q3" t w = Some w' ∧
        contents w' !! "q3/src/engine/renderer/tr_main.c" = Some [] ∧
        contents w' !! "q3/src/engine/renderer/README.md"
        = Some [ln "#ifndef USE_VULKAN"; ln "text"; ln "#endif"].
Proof.
  intros t w.
  destruct (clean_renderer_files "/" "q3" t w) as [w'|] eqn:Hrun;
    [|vm_compute in Hrun; discriminate Hrun].
  exists w'. split; [reflexivity|].
  destruct (other_names_untouched "/" "q3" t w w'
              "q3/src/engine/renderer/README.md" Hrun) as [_ ->];
    [reflexivity|].
  split; [|reflexivity].
  vm_compute in Hrun. injection Hrun as <-. reflexivity.
Defined.


(** X15: after a run that completes, every candidate file holds the
    filtered lines of what it held before, and every other file holds what
    it held before. *)
Theorem clean_contents
  (sep : ascii) (base_path : string) (t : tree) (w w' : world) (path : string) :
  clean_renderer_files sep base_path t w = Some w' →
  contents w' !! path =
  if decide (path ∈ files_to_process sep
       (walk sep (join sep (join sep (join sep base_path "src") "engine") "renderer") t))
  then process_lines <$> contents w !! path
  else contents w !! path.
Proof.
  unfold clean_renderer_files. intros Hrun.
  destruct (rewrite_all _ _) as [[w2 n]|] eqn:E; simpl in Hrun; [|done].
  injection Hrun as <-.
  apply (rewrite_all_contents _ _ _ E path).
Qed.

Lemma clean_contents_witness :
  let t := Dir [("gl", Dir [] ["a.c"])] ["b.h"] in
  let w :=
    World (list_to_map
             [("q3/src/engine/renderer/gl/a.c",
               [ln "#ifdef USE_VULKAN"; ln "vk();"; ln "#else"; ln "gl();"; ln "#endif"]);
              ("q3/src/engine/renderer/b.h", [ln "int x;"])]) [] in
  ∃ w', clean_renderer_files "/" "q3" t w = Some w' ∧
        contents w' !! "q3/src/engine/renderer/gl/a.c" = Some [ln "vk();"].
Proof.
  intros t w.
  destruct (clean_renderer_files "/" "q3" t w) as [w'|] eqn:Hrun;
    [|vm_compute in Hrun; discriminate Hrun].
  exists w'. split; [reflexivity|].
  rewrite (clean_contents "/" "q3" t w w' "q3/src/engine/renderer/gl/a.c" Hrun).
  reflexivity.
Defined.

(** X16: a run creates no file and removes none: the set of stored paths
    is the same before and after. *)
Theorem clean_preserves_paths
  (sep : ascii) (base_path : string) (t : tree) (w w' : world) :
  clean_renderer_files sep base_path t w = Some w' →
  dom (contents w') = dom (contents w).
Proof.
  unfold clean_renderer_files. intros Hrun.
  destruct (rewrite_all _ _) as [[w2 n]|] eqn:E; simpl in Hrun; [|done].
  injection Hrun as <-. simpl.
  apply set_eq. intros q. rewrite !elem_of_dom.
  pose proof (rewrite_all_contents _ _ _ E q) as Hq. simpl in Hq.
  rewrite Hq. case_decide; [|done]. by rewrite fmap_is_Some.
Qed.

Lemma clean_preserves_paths_witness :
  let t := Dir [] ["a.c"] in
  let w :=
    World {[ "q3/src/engine/renderer/a.c" := [ln "#ifndef USE_VULKAN"] ]} [] in
  ∃ w', clean_renderer_files "/" "q3" t w = Some w' ∧
        dom (contents w') = dom (contents w).
Proof.
  intros t w.
  destruct (clean_renderer_files "/" "q3" t w) as [w'|] eqn:Hrun;
    [|vm_compute in Hrun; discriminate Hrun].
  exists w'. split; [reflexivity|].
  apply (clean_preserves_paths "/" "q3" t w w' Hrun).
Defined.

(** X17: the driver is idempotent on a tree: after a run that completes, a
    second run over the same directories finds the same candidates,
    rewrites nothing and reports no modified file. *)
Theorem clean_twice
  (sep : ascii) (base_path : string) (t : tree) (w w1 : world) :
  clean_renderer_files sep base_path t w = Some w1 →
  clean_renderer_files sep base_path t w1
  = Some (World (contents w1)
            (stdout w1 ++
             ["Found " +:+
                pretty (length (files_to_process sep
                  (walk sep
                     (join sep (join sep (join sep base_path "src") "engine") "renderer")
                     t))) +:+ " files to process";
              LF +:+ "Modified 0 files";
              "OpenGL code removal complete!"])).
Proof.
  intros Hrun.
  assert (∀ p, contents w1 !! p =
    if decide (p ∈ files_to_process sep
         (walk sep (join sep (join sep (join sep base_path "src") "engine") "renderer") t))
    then process_lines <$> contents w !! p else contents w !! p) as Hc.
  { intros p. revert Hrun. unfold clean_renderer_files. intros Hrun.
    destruct (rewrite_all _ _) as [[w2 n]|] eqn:E; simpl in Hrun; [|done].
    injection Hrun as <-. apply (rewrite_all_contents _ _ _ E p). }
  assert (Forall (λ p, is_Some (contents w !! p))
    (files_to_process sep
       (walk sep (join sep (join sep (join sep base_path "src") "engine") "renderer") t)))
    as Hread.
  { revert Hrun. unfold clean_renderer_files. intros Hrun.
    destruct (rewrite_all _ _) as [[w2 n]|] eqn:E; simpl in Hrun; [|done].
    exact (proj1 (rewrite_all_is_Some _ _) (ex_intro _ _ E)). }
  unfold clean_renderer_files.
  rewrite rewrite_all_fixed; [simpl; by rewrite <-app_assoc|].
  simpl. rewrite Forall_forall in Hread. apply Forall_forall. intros p Hp.
  destruct (Hread p Hp) as [l Hl]. exists (process_lines l).
  rewrite Hc, decide_True, Hl by done. split; [done|].
  apply process_lines_fixed.
Qed.

Lemma clean_twice_witness :
  let t := Dir [] ["a.c"] in
  let w :=
    World {[ "q3/src/engine/renderer/a.c" :=
               [ln "#ifndef USE_VULKAN"; ln "gl();"; ln "#endif"; ln "x"] ]} [] in
  ∃ w1, clean_renderer_files "/" "q3" t w = Some w1 ∧
        clean_renderer_files "/" "q3" t w1
        = Some (World (contents w1)
                  (stdout w1 ++
                   ["Found 1 files to process"; LF +:+ "Modified 0 files";
                    "OpenGL code removal complete!"])).
Proof.
  intros t w.
  destruct (clean_renderer_files "/" "q3" t w) as [w1|] eqn:Hrun;
    [|vm_compute in Hrun; discriminate Hrun].
  exists w1. split; [reflexivity|].
  apply (clean_twice "/" "q3" t w w1 Hrun).
Defined.

(** X18: the report of a run that completes: the found-count line, then
    one [Modified:] line for each candidate whose stored lines were changed
    by the run and for no other, in candidate order, then the summary line,
    whose count is the number of those lines, and the closing line. *)
Theorem clean_report
  (sep : ascii) (base_path : string) (t : tree) (w w' : world) :
  let candidates :=
    files_to_process sep
      (walk sep (join sep (join sep (join sep base_path "src") "engine") "renderer") t) in
  clean_renderer_files sep base_path t w = Some w' →
  ∃ modified,
    modified `sublist_of` candidates ∧
    (∀ p, p ∈ modified ↔
          p ∈ candidates ∧ contents w' !! p ≠ contents w !! p) ∧
    stdout w' =
    stdout w ++
    ["Found " +:+ pretty (length candidates) +:+ " files to process"] ++
    map (String.append "Modified: ") modified ++
    [LF +:+ "Modified " +:+ pretty (Z.of_nat (length modified)) +:+ " files";
     "OpenGL code removal complete!"].
Proof.
  intros candidates. unfold clean_renderer_files. fold candidates. intros Hrun.
  destruct (rewrite_all _ _) as [[w2 n]|] eqn:E; simpl in Hrun; [|done].
  injection Hrun as <-.
  destruct (rewrite_all_report _ _ _ E) as (m & Hsub & Hout & Hcount & Hm).
  simpl in *. exists m. split; [done|]. split; [done|].
  rewrite Hout, Hcount, Z.add_0_l. by rewrite <-!app_assoc.
Qed.

Lemma clean_report_witness :
  let t := Dir [] ["a.c"; "b.c"] in
  let w :=
    World (list_to_map
             [("q3/src/engine/renderer/a.c", [ln "int x;"]);
              ("q3/src/engine/renderer/b.c",
               [ln "#ifndef USE_VULKAN"; ln "gl();"; ln "#endif"])]) [] in
  ∃ w' modified,
    clean_renderer_files "/" "q3" t w = Some w' ∧
    modified `sublist_of`
      ["q3/src/engine/renderer/a.c"; "q3/src/engine/renderer/b.c"] ∧
    stdout w' =
    [] ++ ["Found 2 files to process"] ++
    map (String.append "Modified: ") modified ++
    [LF +:+ "Modified " +:+ pretty (Z.of_nat (length modified)) +:+ " files";
     "OpenGL code removal complete!"].
Proof.
  intros t w.
  destruct (clean_renderer_files "/" "q3" t w) as [w'|] eqn:Hrun;
    [|vm_compute in Hrun; discriminate Hrun].
  destruct (clean_report "/" "q3" t w w' Hrun) as (m & Hsub & _ & Hout).
  exists w', m. split; [reflexivity|]. split; [exact Hsub | exact Hout].
Defined.

(** X19: a readable candidate is left alone by the rewrite loop exactly
    when none of its lines is a directive line that carries an opening
    token; otherwise it is overwritten and counted. *)
Theorem rewrite_iff_opening_directive
  (w : world) (modified_count : Z) (filepath : string) (lines : list string) :
  contents w !! filepath = Some lines →
  rewrite_file (w, modified_count) filepath = Some (w, modified_count) ↔
  Forall (λ x, opener x = false) lines.
Proof.
  intros Hread.
  destruct (rewrite_file_cases w modified_count filepath lines Hread)
    as [[Hsame ->] | [Hdiff ->]].
  - split; [|done]. intros _. rewrite <-Hsame.
    apply (emitted_no_opener initial).
  - split.
    + intros [= _ Hcount]. lia.
    + intros Hno. destruct Hdiff. by apply process_lines_no_opener.
Qed.

Lemma rewrite_iff_opening_directive_witness :
  let w := World {[ "a.c" := [ln "#if 0"; ln "x"; ln "#endif"] ]} [] in
  rewrite_file (w, 0) "a.c" = Some (w, 0).
Proof.
  intros w.
  apply (rewrite_iff_opening_directive w 0 "a.c" [ln "#if 0"; ln "x"; ln "#endif"]).
  - reflexivity.
  - repeat constructor.
Defined.

(** X20: when the path of the renderer directory itself carries [vulkan]
    (for instance because the base path does), the run selects no file at
    all: it changes nothing and reports zero files found and modified. *)
Theorem excluded_renderer_path
  (sep : ascii) (base_path : string) (t : tree) (w : world) :
  contains "vulkan"
    (join sep (join sep (join sep base_path "src") "engine") "renderer") = true →
  plain_tree sep t = true →
  clean_renderer_files sep base_path t w
  = Some (World (contents w)
            (stdout w ++
             ["Found 0 files to process"; LF +:+ "Modified 0 files";
              "OpenGL code removal complete!"])).
Proof.
  intros Hpath Hplain. unfold clean_renderer_files.
  rewrite files_to_process_excluded by (by apply walk_roots_contain).
  simpl. by rewrite <-app_assoc.
Qed.

Lemma excluded_renderer_path_witness :
  let t := Dir [("gl", Dir [] ["a.c"])] ["tr_main.c"] in
  let w :=
    World {[ "/home/me/vulkan-port/src/engine/renderer/tr_main.c" :=
               [ln "#ifndef USE_VULKAN"; ln "gl();"; ln "#endif"] ]} [] in
  clean_renderer_files "/" "/home/me/vulkan-port" t w
  = Some (World (contents w)
            ["Found 0 files to process"; LF +:+ "Modified 0 files";
             "OpenGL code removal complete!"]).
Proof.
  intros t w.
  apply (excluded_renderer_path "/" "/home/me/vulkan-port" t w); reflexivity.
Defined.
